(** * Icon generator (icons/create_icons.py)

    A shallow embedding of [create_icon] and [main].  Python integers are
    [Z], [//] is [Z.div] (floor division), strings are [string], the files
    of the working directory are a [gmap] from file name to contents, and an
    exception is the [Raise] branch of a result type: the source has no
    [try], so every library call is sequenced with a plain bind.

    The drawing library (Pillow) is not part of the repository.  Its
    operations are the fields of the class [Pillow]; what the proofs need to
    know about them is stated in the section [Laws] and taken as hypotheses
    in the section [Renderer], and the module [Ref] gives an implementation
    that satisfies all of them.  The module [Rec] is an implementation that
    records the calls made on it. *)

From Stdlib Require Import ZArith Lia.
From stdpp Require Import base numbers list strings pretty gmap.

Open Scope Z_scope.

(** ** Results of fallible calls *)

Inductive result (E A : Type) : Type :=
  | Ok (a : A)
  | Raise (e : E).

Arguments Ok {E A} a.
Arguments Raise {E A} e.

Global Instance result_bind {E} : MBind (result E) := λ A B f m,
  match m with
  | Ok a => f a
  | Raise e => Raise e
  end.

Global Instance result_ret {E} : MRet (result E) := λ A a, Ok a.

Global Instance result_fmap {E} : FMap (result E) := λ A B f m,
  match m with
  | Ok a => Ok (f a)
  | Raise e => Raise e
  end.

(** A [for] loop that threads an accumulator and stops at the first
    exception. *)
Fixpoint foldM {E A B} (f : A → B → result E A) (a : A) (xs : list B)
  : result E A :=
  match xs with
  | [] => Ok a
  | x :: xs' => a' ← f a x; foldM f a' xs'
  end.

(** ** Data *)

(** An RGBA colour, written [(r, g, b, a)] as in the source. *)
Definition color : Type := Z * Z * Z * Z.

Definition alpha (c : color) : Z := c.2.

(** A box or a segment, written [[x0, y0, x1, y1]] in the source. *)
Definition coords : Type := Z * Z * Z * Z.

(** The keyword arguments of one [draw.ellipse] call. *)
Record EllipseCall := {
  e_xy : coords;
  e_fill : color;
  e_outline : color;
  e_width : Z
}.

(** The keyword arguments of one [draw.line] call. *)
Record LineCall := {
  l_xy : coords;
  l_fill : color;
  l_width : Z
}.

(** The script's view of the outside: the files of the working directory
    and the lines printed so far. *)
Record World := {
  files : gmap string (list Byte.byte);
  stdout : list string
}.

Definition print (line : string) (w : World) : World :=
  {| files := files w; stdout := stdout w ++ [line] |}.

(** ** The drawing library *)

Class Pillow := {
  Image : Type;
  Exn : Type;
  (** [Image.new(mode, (w, h), color)] *)
  Image_new : string → Z * Z → color → result Exn Image;
  im_mode : Image → string;
  im_size : Image → Z * Z;
  getpixel : Image → Z * Z → color;
  (** [draw.ellipse(xy, fill, outline, width)] on the image [draw] wraps *)
  draw_ellipse : coords → color → color → Z → Image → result Exn Image;
  (** [draw.line(xy, fill, width)] *)
  draw_line : coords → color → Z → Image → result Exn Image;
  (** the bytes of an image in a file format *)
  encode : string → Image → list Byte.byte;
  (** [img.save(filename, format)] *)
  Image_save : Image → string → string → gmap string (list Byte.byte)
               → result Exn (gmap string (list Byte.byte))
}.

(** ** The script *)

(** Line 16. *)
Definition margin (size : Z) : Z := size / 8.

(** Line 21. *)
Definition center (size : Z) : Z := size / 2.

(** Line 22. *)
Definition line_width (size : Z) : Z := Z.max 1 (size / 16).

(** Lines 16-18: the arguments of the [draw.ellipse] call. *)
Definition icon_ellipse (size : Z) : EllipseCall :=
  let margin := size / 8 in
  {| e_xy := (margin, margin, size - margin, size - margin);
     e_fill := (0, 124, 186, 255);
     e_outline := (0, 90, 140, 255);
     e_width := 2 |}.

(** Lines 26-29: the body of the first loop, at index [i]. *)
Definition horizontal_line (size i : Z) : LineCall :=
  let center := size / 2 in
  let line_width := Z.max 1 (size / 16) in
  let y := center - size / 6 + i * size / 6 in
  let x1 := center - size / 4 in
  let x2 := center + size / 4 in
  {| l_xy := (x1, y, x2, y);
     l_fill := (255, 255, 255, 255);
     l_width := line_width |}.

(** Lines 33-36: the body of the second loop, at index [i]. *)
Definition vertical_line (size i : Z) : LineCall :=
  let center := size / 2 in
  let line_width := Z.max 1 (size / 16) in
  let x := center - size / 8 + i * size / 4 in
  let y1 := center - size / 6 in
  let y2 := center + size / 6 in
  {| l_xy := (x, y1, x, y2);
     l_fill := (255, 255, 255, 255);
     l_width := line_width |}.

(** [range(n)] *)
Definition range (n : Z) : list Z := seqZ 0 n.

(** The five [draw.line] calls in the order they are made. *)
Definition icon_lines (size : Z) : list LineCall :=
  (horizontal_line size <$> range 3) ++ (vertical_line size <$> range 2).

(** Line 44. *)
Definition sizes : list Z := [16; 32; 48; 128].

(** Line 47: [f"icon{size}.png"]. *)
Definition icon_filename (size : Z) : string :=
  "icon" +:+ pretty size +:+ ".png".

(** Line 40: [f"Created {filename} ({size}x{size})"]. *)
Definition created_message (size : Z) (filename : string) : string :=
  "Created " +:+ filename +:+ " (" +:+ pretty size +:+ "x" +:+ pretty size
  +:+ ")".

Section Script.
Context `{Pillow}.

Definition ellipse_call (c : EllipseCall) (img : Image)
  : result Exn Image :=
  draw_ellipse (e_xy c) (e_fill c) (e_outline c) (e_width c) img.

Definition line_call (img : Image) (c : LineCall) : result Exn Image :=
  draw_line (l_xy c) (l_fill c) (l_width c) img.

(** Lines 25-36: the two loops, drawing on [img]. *)
Definition draw_lines (size : Z) (img : Image) : result Exn Image :=
  img ← foldM (λ img i, line_call img (horizontal_line size i)) img
              (range 3);
  foldM (λ img i, line_call img (vertical_line size i)) img (range 2).

(** Lines 16-36: everything drawn on the fresh canvas. *)
Definition draw_phase (size : Z) (img : Image) : result Exn Image :=
  img ← ellipse_call (icon_ellipse size) img;
  draw_lines size img.

(** Lines 11-36: the canvas and the drawing. *)
Definition render (size : Z) : result Exn Image :=
  img ← Image_new "RGBA" (size, size) (0, 0, 0, 0);
  draw_phase size img.

(** Lines 9-40. *)
Definition create_icon (size : Z) (filename : string) (w : World)
  : result Exn World :=
  img ← render size;
  fs ← Image_save img filename "PNG" (files w);
  Ok (print (created_message size filename)
            {| files := fs; stdout := stdout w |}).

(** Lines 46-48: the loop of [main] over a list of sizes. *)
Definition for_sizes (l : list Z) (w : World) : result Exn World :=
  foldM (λ w size, create_icon size (icon_filename size) w) w l.

(** Lines 42-48. *)
Definition main (w : World) : result Exn World := for_sizes sizes w.
End Script.

(** ** What the proofs assume about the library

    Each property below is a statement about the operations of a [Pillow]
    instance.  The theorems take the ones they use as hypotheses. *)

Definition start_point (c : coords) : Z * Z := (c.1.1.1, c.1.1.2).
Definition end_point (c : coords) : Z * Z := (c.1.2, c.2).

(** [p] is a pixel of a canvas of the given size. *)
Definition on_canvas (size : Z * Z) (p : Z * Z) : Prop :=
  (0 <= p.1 < size.1) ∧ (0 <= p.2 < size.2).

(** [p] lies in the box [b], borders included. *)
Definition in_box (b : coords) (p : Z * Z) : Prop :=
  (b.1.1.1 <= p.1 <= b.1.2) ∧ (b.1.1.2 <= p.2 <= b.2).

(** The box around a segment drawn with a pen of the given width: the
    pen reaches at most half its width away from the segment. *)
Definition line_extent (c : coords) (width : Z) : coords :=
  (Z.min c.1.1.1 c.1.2 - width / 2, Z.min c.1.1.2 c.2 - width / 2,
   Z.max c.1.1.1 c.1.2 + width / 2, Z.max c.1.1.2 c.2 + width / 2).

(** [p] lies in the ellipse inscribed in [b] shrunk by [d] on every side.
    With [ax] and [ay] the axes of the shrunk ellipse and [dx], [dy] twice
    the offset of [p] from the centre, this is
    [(dx / ax)^2 + (dy / ay)^2 <= 1] cleared of denominators. *)
Definition in_ellipse (b : coords) (d : Z) (p : Z * Z) : Prop :=
  let ax := b.1.2 - b.1.1.1 - 2 * d in
  let ay := b.2 - b.1.1.2 - 2 * d in
  let dx := 2 * p.1 - (b.1.1.1 + b.1.2) in
  let dy := 2 * p.2 - (b.1.1.2 + b.2) in
  0 < ax ∧ 0 < ay ∧ (dx * ay) ^ 2 + (dy * ax) ^ 2 <= (ax * ay) ^ 2.

(** A pixel of the filled interior: inside the outline, with a pixel to
    spare. *)
Definition well_inside (b : coords) (width : Z) (p : Z * Z) : Prop :=
  in_ellipse b (width + 1) p.

Global Instance on_canvas_dec size p : Decision (on_canvas size p).
Proof. unfold on_canvas. apply _. Defined.

Global Instance in_box_dec b p : Decision (in_box b p).
Proof. unfold in_box. apply _. Defined.

Global Instance in_ellipse_dec b d p : Decision (in_ellipse b d p).
Proof. unfold in_ellipse. cbv zeta. apply _. Defined.

Global Instance well_inside_dec b w p : Decision (well_inside b w p).
Proof. unfold well_inside. apply _. Defined.

Section Laws.
Context `{Pillow}.

(** A fresh RGBA canvas has the mode, the size and the colour asked for. *)
Definition new_canvas : Prop :=
  ∀ w h c, 0 <= w → 0 <= h →
    ∃ img, Image_new "RGBA" (w, h) c = Ok img ∧
           im_mode img = "RGBA" ∧ im_size img = (w, h) ∧
           ∀ p, on_canvas (w, h) p → getpixel img p = c.

(** [draw.ellipse] accepts every box whose corners are in order. *)
Definition ellipse_total : Prop :=
  ∀ xy fill outline width img,
    xy.1.1.1 <= xy.1.2 → xy.1.1.2 <= xy.2 → 0 <= width →
    ∃ img', draw_ellipse xy fill outline width img = Ok img'.

Definition ellipse_keeps_shape : Prop :=
  ∀ xy fill outline width img img',
    draw_ellipse xy fill outline width img = Ok img' →
    im_mode img' = im_mode img ∧ im_size img' = im_size img.

(** [draw.ellipse] leaves the pixels outside the bounding box alone. *)
Definition ellipse_frame : Prop :=
  ∀ xy fill outline width img img',
    draw_ellipse xy fill outline width img = Ok img' →
    ∀ p, ¬ in_box xy p → getpixel img' p = getpixel img p.

(** [draw.ellipse] gives the fill colour to the interior. *)
Definition ellipse_fills : Prop :=
  ∀ xy fill outline width img img',
    draw_ellipse xy fill outline width img = Ok img' →
    0 <= width →
    ∀ p, on_canvas (im_size img) p → well_inside xy width p →
         getpixel img' p = fill.

(** [draw.line] accepts a segment with both ends on the canvas. *)
Definition line_total : Prop :=
  ∀ xy fill width img,
    1 <= width →
    on_canvas (im_size img) (start_point xy) →
    on_canvas (im_size img) (end_point xy) →
    ∃ img', draw_line xy fill width img = Ok img'.

Definition line_keeps_shape : Prop :=
  ∀ xy fill width img img',
    draw_line xy fill width img = Ok img' →
    im_mode img' = im_mode img ∧ im_size img' = im_size img.

(** [draw.line] leaves the pixels outside the pen's reach alone. *)
Definition line_frame : Prop :=
  ∀ xy fill width img img',
    draw_line xy fill width img = Ok img' →
    ∀ p, ¬ in_box (line_extent xy width) p →
         getpixel img' p = getpixel img p.

(** [draw.line] gives the pen's colour to the first end of the segment. *)
Definition line_paints_start : Prop :=
  ∀ xy fill width img img',
    draw_line xy fill width img = Ok img' →
    1 <= width → on_canvas (im_size img) (start_point xy) →
    getpixel img' (start_point xy) = fill.

(** [img.save] writes the encoded image under the given name and touches
    no other file. *)
Definition save_writes : Prop :=
  ∀ img filename format fs fs',
    Image_save img filename format fs = Ok fs' →
    fs' = <[filename := encode format img]> fs.

(** The working directory accepts every write. *)
Definition save_total : Prop :=
  ∀ img filename format fs,
    ∃ fs', Image_save img filename format fs = Ok fs'.
End Laws.

(** ** A reference implementation of the library

    A small rasteriser with the interface of [Pillow].  It shows that the
    properties of section [Laws] can all hold together, and gives the
    theorems concrete instances to run on. *)

Module Ref.

Inductive exn : Type :=
  | ValueError (msg : string).

Record image := {
  mode : string;
  size : Z * Z;
  px : Z * Z → color
}.

Definition new (m : string) (sz : Z * Z) (c : color) : result exn image :=
  if decide (0 <= sz.1 ∧ 0 <= sz.2)
  then Ok {| mode := m; size := sz; px := λ _, c |}
  else Raise (ValueError "Width and height must be >= 0").

(** Recolour the pixels of the canvas for which [f] gives a colour. *)
Definition paint (f : Z * Z → option color) (img : image) : image :=
  {| mode := mode img;
     size := size img;
     px := λ p, if decide (on_canvas (size img) p)
                then default (px img p) (f p)
                else px img p |}.

Definition ellipse (xy : coords) (fill outline : color) (width : Z)
    (img : image) : result exn image :=
  if decide (xy.1.1.1 <= xy.1.2 ∧ xy.1.1.2 <= xy.2)
  then Ok (paint (λ p,
             if decide (in_box xy p)
             then if decide (well_inside xy (Z.max 0 width) p)
                  then Some fill
                  else if decide (in_ellipse xy 0 p)
                       then Some outline
                       else None
             else None) img)
  else Raise (ValueError "x1 must be greater than or equal to x0").

Definition line (xy : coords) (fill : color) (width : Z) (img : image)
  : result exn image :=
  Ok (paint (λ p, if decide (in_box (line_extent xy width) p)
                  then Some fill
                  else None) img).

Definition byte_of_Z (z : Z) : Byte.byte :=
  default Byte.x00 (Byte.of_N (Z.to_N (z mod 256))).

Definition color_bytes (c : color) : list Byte.byte :=
  [byte_of_Z c.1.1.1; byte_of_Z c.1.1.2; byte_of_Z c.1.2; byte_of_Z c.2].

(** The format name followed by the pixels, row by row. *)
Definition enc (format : string) (img : image) : list Byte.byte :=
  String.list_byte_of_string format ++
  (y ← seqZ 0 (size img).2;
   x ← seqZ 0 (size img).1;
   color_bytes (px img (x, y))).

Definition save (img : image) (filename format : string)
    (fs : gmap string (list Byte.byte))
  : result exn (gmap string (list Byte.byte)) :=
  Ok (<[filename := enc format img]> fs).

Definition pillow : Pillow :=
  {| Image := image;
     Exn := exn;
     Image_new := new;
     im_mode := mode;
     im_size := size;
     getpixel := px;
     draw_ellipse := ellipse;
     draw_line := line;
     encode := enc;
     Image_save := save |}.

(** The world before the script runs: an empty directory, nothing
    printed. *)
Definition empty_world : World := {| files := ∅; stdout := [] |}.

End Ref.

(** ** A recording implementation of the library

    Here an image is the list of the calls made on it, oldest first, and
    nothing is rasterised: [getpixel] answers with the colour of the
    fresh canvas and a file holds no bytes.  Running the script on it
    shows which library calls the script makes, in which order and with
    which arguments. *)

Module Rec.

Inductive call : Type :=
  | New (mode : string) (size : Z * Z) (c : color)
  | Ellipse (c : EllipseCall)
  | Line (c : LineCall).

(** The [draw.ellipse] calls of a log, in order. *)
Definition ellipses (log : list call) : list EllipseCall :=
  omap (λ c, match c with Ellipse e => Some e | _ => None end) log.

(** The [draw.line] calls of a log, in order. *)
Definition lines (log : list call) : list LineCall :=
  omap (λ c, match c with Line l => Some l | _ => None end) log.

Definition pillow : Pillow :=
  {| Image := list call;
     Exn := Empty_set;
     Image_new := λ m sz c, Ok [New m sz c];
     im_mode := λ log, match log with New m _ _ :: _ => m | _ => "" end;
     im_size := λ log, match log with New _ sz _ :: _ => sz | _ => (0, 0) end;
     getpixel := λ log _,
       match log with New _ _ c :: _ => c | _ => (0, 0, 0, 0) end;
     draw_ellipse := λ xy fill outline width log,
       Ok (log ++ [Ellipse {| e_xy := xy; e_fill := fill;
                              e_outline := outline; e_width := width |}]);
     draw_line := λ xy fill width log,
       Ok (log ++ [Line {| l_xy := xy; l_fill := fill; l_width := width |}]);
     encode := λ _ _, [];
     Image_save := λ _ filename _ fs, Ok (<[filename := []]> fs) |}.

End Rec.

(** ** Well-formed calls *)

(** The box of an ellipse call has its corners in order and the outline
    width is not negative. *)
Definition valid_ellipse (c : EllipseCall) : Prop :=
  (e_xy c).1.1.1 <= (e_xy c).1.2 ∧ (e_xy c).1.1.2 <= (e_xy c).2 ∧
  0 <= e_width c.

(** Both ends of a line call are pixels of a [size] by [size] canvas and
    the pen is at least one pixel wide. *)
Definition valid_line (size : Z) (c : LineCall) : Prop :=
  1 <= l_width c ∧
  on_canvas (size, size) (start_point (l_xy c)) ∧
  on_canvas (size, size) (end_point (l_xy c)).

(** The pen of a line call does not reach [p]. *)
Definition misses (p : Z * Z) (c : LineCall) : Prop :=
  ¬ in_box (line_extent (l_xy c) (l_width c)) p.

(** The four corner pixels of a [size] by [size] canvas. *)
Definition corners (size : Z) : list (Z * Z) :=
  [(0, 0); (0, size - 1); (size - 1, 0); (size - 1, size - 1)].

(** The box [inner] lies strictly inside the box [outer]. *)
Definition box_inside (inner outer : coords) : Prop :=
  outer.1.1.1 < inner.1.1.1 ∧ outer.1.1.2 < inner.1.1.2 ∧
  inner.1.2 < outer.1.2 ∧ inner.2 < outer.2.

(** The layout the loops aim at: three horizontal segments from column
    [center - size // 4] to column [center + size // 4] in the rows
    [center - size // 6], [center] and [center + size // 6], and two
    vertical segments running from the top row to the bottom row. *)
Definition evenly_connected (size : Z) : Prop :=
  let c := size / 2 in
  l_xy <$> (horizontal_line size <$> range 3) =
    [(c - size / 4, c - size / 6, c + size / 4, c - size / 6);
     (c - size / 4, c, c + size / 4, c);
     (c - size / 4, c + size / 6, c + size / 4, c + size / 6)] ∧
  ∃ x1 x2, l_xy <$> (vertical_line size <$> range 2) =
    [(x1, c - size / 6, x1, c + size / 6);
     (x2, c - size / 6, x2, c + size / 6)].

(** A pixel between the top and the middle horizontal segment, in the
    column of the centre. *)
Definition fill_probe (size : Z) : Z * Z :=
  (center size, center size - size / 12).

(** The first end of the segment drawn last. *)
Definition white_probe (size : Z) : Z * Z :=
  start_point (l_xy (vertical_line size 1)).

Global Instance valid_ellipse_dec c : Decision (valid_ellipse c).
Proof. unfold valid_ellipse. apply _. Defined.

Global Instance valid_line_dec size c : Decision (valid_line size c).
Proof. unfold valid_line. apply _. Defined.

Global Instance misses_dec p c : Decision (misses p c).
Proof. unfold misses. apply _. Defined.

Global Instance box_inside_dec a b : Decision (box_inside a b).
Proof. unfold box_inside. apply _. Defined.

(** ** Loops *)

Lemma foldM_app {E A B} (f : A → B → result E A) a xs ys :
  foldM f a (xs ++ ys) = a' ← foldM f a xs; foldM f a' ys.
Proof.
  revert a. induction xs as [|x xs IH]; intros a; simpl; [done|].
  destruct (f a x); simpl; auto.
Qed.

Lemma foldM_fmap {E A B C} (g : C → B) (f : A → B → result E A) a xs :
  foldM f a (g <$> xs) = foldM (λ a x, f a (g x)) a xs.
Proof.
  revert a. induction xs as [|x xs IH]; intros a; simpl; [done|].
  destruct (f a (g x)); simpl; auto.
Qed.

(** A loop raises exactly when one iteration raises after all the earlier
    ones returned; the later ones are not run. *)
Lemma foldM_raise {E A B} (f : A → B → result E A) a xs e :
  foldM f a xs = Raise e ↔
  ∃ pre x post a', xs = pre ++ x :: post ∧
                   foldM f a pre = Ok a' ∧ f a' x = Raise e.
Proof.
  revert a. induction xs as [|x xs IH]; intros a; simpl.
  - split; [done|]. intros (pre & y & post & a' & Heq & _).
    by destruct pre.
  - split.
    + destruct (f a x) as [a1|e1] eqn:Hf; simpl.
      * intros Hr. apply IH in Hr as (pre & y & post & a' & -> & Hpre & Hy).
        exists (x :: pre), y, post, a'. simpl. rewrite Hf. simpl. auto.
      * intros [= ->]. by exists [], x, xs, a.
    + intros (pre & y & post & a' & Heq & Hpre & Hy).
      destruct pre as [|z pre]; simpl in *.
      * injection Heq as -> ->. injection Hpre as ->. by rewrite Hy.
      * injection Heq as -> ->.
        destruct (f a z) as [a1|e1]; simpl in *; [|done].
        apply IH. by exists pre, y, post, a'.
Qed.

(** ** The reference implementation satisfies every assumption *)

Lemma square_le_bound u a c :
  0 < a → 0 < c → (u * c) ^ 2 <= (a * c) ^ 2 → - a <= u <= a.
Proof.
  intros Ha Hc Hle. rewrite !Z.pow_mul_l in Hle.
  assert (Hc2 : 0 < c ^ 2) by nia.
  apply Z.mul_le_mono_pos_r in Hle; [|done].
  nia.
Qed.

(** A pixel of an ellipse shrunk into its box is a pixel of the box. *)
Lemma in_ellipse_in_box b d p : 0 <= d → in_ellipse b d p → in_box b p.
Proof.
  unfold in_ellipse, in_box. cbv zeta.
  destruct b as [[[x0 y0] x1] y1], p as [x y]. simpl.
  intros Hd (Hax & Hay & Hle).
  set (ax := x1 - x0 - 2 * d) in *. set (ay := y1 - y0 - 2 * d) in *.
  set (dx := 2 * x - (x0 + x1)) in *. set (dy := 2 * y - (y0 + y1)) in *.
  assert (Hx : - ax <= dx <= ax).
  { apply (square_le_bound dx ax ay); [done..|].
    pose proof (Z.pow_even_nonneg (dy * ax) 2 ltac:(by exists 1)). lia. }
  assert (Hy : - ay <= dy <= ay).
  { apply (square_le_bound dy ay ax); [done..|].
    pose proof (Z.pow_even_nonneg (dx * ay) 2 ltac:(by exists 1)).
    rewrite (Z.mul_comm ay ax). lia. }
  unfold ax, ay, dx, dy in *. lia.
Qed.

Lemma ref_new_canvas : new_canvas (H := Ref.pillow).
Proof.
  intros w h c Hw Hh. simpl. unfold Ref.new. simpl.
  rewrite decide_True by done. eauto.
Qed.

Lemma ref_ellipse_total : ellipse_total (H := Ref.pillow).
Proof.
  intros xy f o wd img Hx Hy _. simpl. unfold Ref.ellipse.
  rewrite decide_True by done. eauto.
Qed.

Lemma ref_ellipse_keeps_shape : ellipse_keeps_shape (H := Ref.pillow).
Proof.
  intros xy f o wd img img'. simpl. unfold Ref.ellipse.
  case_decide; [|done]. by intros [= <-].
Qed.

Lemma ref_ellipse_frame : ellipse_frame (H := Ref.pillow).
Proof.
  intros xy f o wd img img'. simpl. unfold Ref.ellipse.
  case_decide; [|done]. intros [= <-] p Hp. simpl.
  case_decide; [|done]. by rewrite decide_False.
Qed.

Lemma ref_ellipse_fills : ellipse_fills (H := Ref.pillow).
Proof.
  intros xy f o wd img img'. simpl. unfold Ref.ellipse.
  case_decide; [|done]. intros [= <-] Hwd p Hp Hin. simpl.
  rewrite Z.max_r by done.
  rewrite decide_True by done.
  rewrite decide_True by (apply (in_ellipse_in_box _ (wd + 1)); [lia|done]).
  by rewrite decide_True.
Qed.

Lemma ref_line_total : line_total (H := Ref.pillow).
Proof. intros xy f wd img _ _ _. simpl. unfold Ref.line. eauto. Qed.

Lemma ref_line_keeps_shape : line_keeps_shape (H := Ref.pillow).
Proof. intros xy f wd img img'. simpl. unfold Ref.line. by intros [= <-]. Qed.

Lemma ref_line_frame : line_frame (H := Ref.pillow).
Proof.
  intros xy f wd img img'. simpl. unfold Ref.line.
  intros [= <-] p Hp. simpl. case_decide; [|done]. by rewrite decide_False.
Qed.

Lemma ref_line_paints_start : line_paints_start (H := Ref.pillow).
Proof.
  intros xy f wd img img'. simpl. unfold Ref.line.
  intros [= <-] Hwd Hp. simpl. rewrite decide_True by done.
  rewrite decide_True; [done|].
  destruct xy as [[[x1 y1] x2] y2]. unfold in_box, line_extent, start_point.
  simpl. assert (0 <= wd / 2) by (apply Z.div_pos; lia). lia.
Qed.

Lemma ref_save_writes : save_writes (H := Ref.pillow).
Proof. intros img fn fmt fs fs'. simpl. unfold Ref.save. by intros [= <-]. Qed.

Lemma ref_save_total : save_total (H := Ref.pillow).
Proof. intros img fn fmt fs. simpl. unfold Ref.save. eauto. Qed.

(** ** The arguments of the drawing calls *)

Ltac floor_div := Z.div_mod_to_equations; lia.

(** Split an equation between lists of tuples into equations between
    their components. *)
Ltac componentwise :=
  repeat match goal with
         | |- _ :: _ = _ :: _ => f_equal
         | |- (_, _) = (_, _) => f_equal
         end.

Lemma range_3 : range 3 = [0; 1; 2].
Proof. reflexivity. Qed.

Lemma range_2 : range 2 = [0; 1].
Proof. reflexivity. Qed.

(** The five line calls, with the loop indices substituted. *)
Lemma icon_lines_unfold size :
  icon_lines size =
  [horizontal_line size 0; horizontal_line size 1; horizontal_line size 2;
   vertical_line size 0; vertical_line size 1].
Proof. reflexivity. Qed.

(** The three horizontal segments span the same columns; the first gap
    is [size // 6] and the second is [2 * size // 6 - size // 6]. *)
Lemma horizontal_line_xy size i :
  l_xy (horizontal_line size i) =
  (center size - size / 4, center size - size / 6 + i * size / 6,
   center size + size / 4, center size - size / 6 + i * size / 6).
Proof. reflexivity. Qed.

Lemma vertical_line_xy size i :
  l_xy (vertical_line size i) =
  (center size - size / 8 + i * size / 4, center size - size / 6,
   center size - size / 8 + i * size / 4, center size + size / 6).
Proof. reflexivity. Qed.

(** The rows of the three horizontal segments relative to the centre. *)
Lemma horizontal_rows size :
  (λ c, (l_xy c).2) <$> (horizontal_line size <$> range 3) =
  [center size - size / 6; center size;
   center size - size / 6 + 2 * size / 6].
Proof.
  rewrite range_3, !fmap_cons, !horizontal_line_xy. cbn [snd fmap list_fmap].
  rewrite Z.mul_0_l, Z.mul_1_l, Z.div_0_l by done.
  componentwise; lia.
Qed.

(** The third row is [size // 6] below the centre exactly when the
    remainder of [size] by 6 is less than 3. *)
Lemma third_row_even size :
  2 * size / 6 - size / 6 = size / 6 ↔ size `mod` 6 < 3.
Proof. split; intros; floor_div. Qed.

(** C3, amended: the ellipse is drawn on the box
    [margin, margin, size - margin, size - margin], where [margin] is
    [size // 8], the floor of one-eighth of the size:
    [8 * margin <= size < 8 * margin + 8].  The inset is one-eighth of
    the size itself whenever 8 divides the size, as it does for the four
    sizes of [main]. *)
Theorem ellipse_margin_eighth (size : Z) :
  e_xy (icon_ellipse size) =
    (margin size, margin size, size - margin size, size - margin size) ∧
  margin size = size / 8 ∧
  8 * margin size <= size < 8 * margin size + 8 ∧
  ((8 | size) → 8 * margin size = size) ∧
  Forall (λ s, 8 * margin s = s) sizes.
Proof.
  unfold margin. repeat split; try done; try floor_div.
  - intros [k ->]. rewrite Z.div_mul by done. lia.
  - unfold sizes. repeat constructor.
Qed.

(** C3 as stated, with the inset equal to one-eighth of the size for
    every positive size, fails at size 12: the box is [1, 1, 11, 11], an
    inset of 1 where one-eighth of the size is 1.5. *)
Lemma margin_not_exact_at_12 :
  e_xy (icon_ellipse 12) = (1, 1, 11, 11) ∧
  margin 12 = 1 ∧
  8 * margin 12 ≠ 12 ∧
  ¬ (∀ size, 0 < size →
       ∃ m, e_xy (icon_ellipse size) = (m, m, size - m, size - m) ∧
            8 * m = size).
Proof.
  split_and!; [reflexivity|reflexivity|by vm_compute|].
  intros Hall. destruct (Hall 12 ltac:(lia)) as (m & Hbox & Hm).
  vm_compute in Hbox. injection Hbox as <-. lia.
Qed.

(** C9: the renderer draws exactly five line segments, all in white and
    all with the pen width [max(1, size // 16)], which is at least 1 and
    is exactly 1 for size 16.  On any library the two loops are the five
    [draw.line] calls with that width, and on the recording library the
    log of [render] holds five line calls, each with that width. *)
Theorem line_width_at_least_one (size : Z) :
  length (icon_lines size) = 5%nat ∧
  Forall (λ c, l_width c = Z.max 1 (size / 16) ∧ 1 <= l_width c ∧
               l_fill c = (255, 255, 255, 255)) (icon_lines size) ∧
  line_width size = Z.max 1 (size / 16) ∧
  1 <= line_width size ∧
  line_width 16 = 1 ∧
  (∀ (P : Pillow) (img : Image),
     draw_lines size img =
     foldM (λ img xy,
              draw_line xy (255, 255, 255, 255) (Z.max 1 (size / 16)) img)
           img (l_xy <$> icon_lines size)) ∧
  (∃ log, render (H := Rec.pillow) size = Ok log ∧
          length (Rec.lines log) = 5%nat ∧
          Forall (λ c, l_width c = Z.max 1 (size / 16) ∧ 1 <= l_width c ∧
                       l_fill c = (255, 255, 255, 255)) (Rec.lines log)) ∧
  (∃ log, render (H := Rec.pillow) 16 = Ok log ∧
          l_width <$> Rec.lines log = [1; 1; 1; 1; 1]).
Proof.
  assert (Forall (λ c, l_width c = Z.max 1 (size / 16) ∧ 1 <= l_width c ∧
                       l_fill c = (255, 255, 255, 255)) (icon_lines size))
    as Hlines.
  { rewrite icon_lines_unfold. repeat constructor; simpl; lia. }
  split_and!; try done; try (unfold line_width; lia).
  - intros P img. unfold draw_lines, icon_lines.
    rewrite fmap_app, foldM_app, !foldM_fmap. reflexivity.
  - eexists. split; [reflexivity|]. split; [reflexivity|exact Hlines].
  - eexists. split; reflexivity.
Qed.

(** The layout is reached exactly when the remainder of the size by 6
    is less than 3: the third row is computed as [2 * size // 6], not as
    [2 * (size // 6)]. *)
Lemma evenly_connected_iff size :
  evenly_connected size ↔ size `mod` 6 < 3.
Proof.
  unfold evenly_connected. cbv zeta.
  rewrite range_3, range_2, !fmap_cons, !horizontal_line_xy,
    !vertical_line_xy.
  cbn [fmap list_fmap]. unfold center.
  rewrite !Z.mul_0_l, !Z.mul_1_l, !Z.div_0_l by done. split.
  - intros [Hh _]. injection Hh as _ _ Hrow _. floor_div.
  - intros Hmod. split; [|by eauto].
    componentwise; floor_div.
Qed.

(** C2 at size 16: the three horizontal segments lie in rows 6, 8 and 11,
    so the gaps are 2 and 3 while [16 // 6] is 2, and the two vertical
    segments run from row 6 to row 10, one row short of the bottom
    horizontal segment: the evenly spaced, connected layout is not
    reached. *)
Theorem lines_at_16 :
  l_xy <$> (horizontal_line 16 <$> range 3) =
    [(4, 6, 12, 6); (4, 8, 12, 8); (4, 11, 12, 11)] ∧
  l_xy <$> (vertical_line 16 <$> range 2) =
    [(6, 6, 6, 10); (10, 6, 10, 10)] ∧
  16 / 6 = 2 ∧
  ¬ evenly_connected 16.
Proof.
  split_and!; [reflexivity..|].
  intros [Hh _]. vm_compute in Hh. discriminate Hh.
Qed.

(** ** The renderer over any implementation of the library *)

Section Renderer.
Context `{Pillow}.

Hypothesis Hnew : new_canvas.
Hypothesis Hell_total : ellipse_total.
Hypothesis Hell_shape : ellipse_keeps_shape.
Hypothesis Hell_frame : ellipse_frame.
Hypothesis Hell_fills : ellipse_fills.
Hypothesis Hline_total : line_total.
Hypothesis Hline_shape : line_keeps_shape.
Hypothesis Hline_frame : line_frame.
Hypothesis Hline_start : line_paints_start.
Hypothesis Hsave_writes : save_writes.
Hypothesis Hsave_total : save_total.

(** The two loops make the calls of [icon_lines], in that order. *)
Lemma draw_lines_calls size img :
  draw_lines size img = foldM line_call img (icon_lines size).
Proof using Type.
  unfold draw_lines, icon_lines. by rewrite foldM_app, !foldM_fmap.
Qed.

Lemma lines_keep_shape cs img img' :
  foldM line_call img cs = Ok img' →
  im_mode img' = im_mode img ∧ im_size img' = im_size img.
Proof using Hline_shape.
  revert img. induction cs as [|c cs IH]; intros img; simpl.
  - by intros [= ->].
  - destruct (line_call img c) as [img1|e] eqn:Hc; simpl; [|done].
    intros Hrest. apply IH in Hrest as [-> ->]. by apply Hline_shape in Hc.
Qed.

Lemma lines_succeed size cs img :
  im_size img = (size, size) → Forall (valid_line size) cs →
  ∃ img', foldM line_call img cs = Ok img'.
Proof using Hline_total Hline_shape.
  intros Hsz Hcs. revert img Hsz.
  induction Hcs as [|c cs (Hw & Hs & He) _ IH]; intros img Hsz; simpl.
  - eauto.
  - assert (∃ img1, line_call img c = Ok img1) as [img1 Hc].
    { apply Hline_total; rewrite ?Hsz; done. }
    rewrite Hc. simpl. apply IH.
    apply Hline_shape in Hc as [_ ->]. done.
Qed.

Lemma lines_frame cs img img' p :
  foldM line_call img cs = Ok img' → Forall (misses p) cs →
  getpixel img' p = getpixel img p.
Proof using Hline_frame.
  intros Hrun Hcs. revert img Hrun.
  induction Hcs as [|c cs Hc _ IH]; intros img; simpl.
  - by intros [= ->].
  - destruct (line_call img c) as [img1|e] eqn:Hcall; simpl; [|done].
    intros Hrest. rewrite (IH _ Hrest).
    by apply (Hline_frame _ _ _ _ _ Hcall).
Qed.

(** After the last call of a non-empty run, the first end of its segment
    has the pen's colour. *)
Lemma lines_last_start size cs c img img' :
  im_size img = (size, size) → valid_line size c →
  foldM line_call img (cs ++ [c]) = Ok img' →
  getpixel img' (start_point (l_xy c)) = l_fill c.
Proof using Hline_start Hline_shape.
  intros Hsz (Hw & Hs & _). rewrite foldM_app.
  destruct (foldM line_call img cs) as [img1|e] eqn:Hcs; simpl; [|done].
  destruct (line_call img1 c) as [img2|e] eqn:Hc; simpl; [|done].
  intros [= <-]. apply lines_keep_shape in Hcs as [_ Hsz1].
  apply (Hline_start _ _ _ _ _ Hc); [done|]. by rewrite Hsz1, Hsz.
Qed.

(** The coordinates the script computes are valid for every positive
    size. *)
Lemma icon_ellipse_valid size : 0 <= size → valid_ellipse (icon_ellipse size).
Proof using Type.
  unfold valid_ellipse. simpl. intros. repeat split; floor_div.
Qed.

Lemma icon_lines_valid size :
  0 < size → Forall (valid_line size) (icon_lines size).
Proof using Type.
  intros Hpos. rewrite icon_lines_unfold.
  repeat constructor; simpl; floor_div.
Qed.

(** A run of [render] on a positive size, call by call: the fresh canvas
    [img0], the canvas [img1] after the ellipse and the result [img]
    after the five lines. *)
Lemma render_run size :
  0 < size →
  ∃ img0 img1 img,
    Image_new "RGBA" (size, size) (0, 0, 0, 0) = Ok img0 ∧
    ellipse_call (icon_ellipse size) img0 = Ok img1 ∧
    foldM line_call img1 (icon_lines size) = Ok img ∧
    render size = Ok img ∧
    (∀ p, on_canvas (size, size) p → getpixel img0 p = (0, 0, 0, 0)) ∧
    im_size img0 = (size, size) ∧ im_size img1 = (size, size) ∧
    im_mode img = "RGBA" ∧ im_size img = (size, size).
Proof using Hnew Hell_total Hell_shape Hline_total Hline_shape.
  intros Hpos.
  destruct (Hnew size size (0, 0, 0, 0)) as (img0 & Hn & Hm0 & Hs0 & Hpx);
    [lia..|].
  destruct (icon_ellipse_valid size) as (Hx & Hy & Hw); [lia|].
  assert (∃ img1, ellipse_call (icon_ellipse size) img0 = Ok img1)
    as [img1 He] by by apply Hell_total.
  pose proof He as [Hm1 Hs1]%Hell_shape.
  destruct (lines_succeed size (icon_lines size) img1) as [img Hl];
    [congruence|by apply icon_lines_valid|].
  pose proof Hl as [Hm Hs]%lines_keep_shape.
  exists img0, img1, img. split_and!; try done; try congruence.
  unfold render, draw_phase. rewrite Hn. simpl. rewrite He. simpl.
  by rewrite draw_lines_calls.
Qed.

(** C7: for every positive size the drawing phase succeeds on a canvas of
    that size: the ellipse box is well formed ([margin <= size - margin]),
    both ends of each of the five segments are pixels of the canvas, and
    so every drawing call is one the library accepts. *)
Theorem drawing_phase_succeeds (size : Z) :
  0 < size →
  margin size <= size - margin size ∧
  valid_ellipse (icon_ellipse size) ∧
  Forall (valid_line size) (icon_lines size) ∧
  ∀ img, im_size img = (size, size) →
         ∃ img', draw_phase size img = Ok img'.
Proof using Hell_total Hell_shape Hline_total Hline_shape.
  intros Hpos.
  pose proof (icon_ellipse_valid size ltac:(lia)) as Hev.
  pose proof (icon_lines_valid size Hpos) as Hlv.
  split_and!; [unfold margin; floor_div|done|done|].
  intros img Hsz. destruct Hev as (Hx & Hy & Hw).
  assert (∃ img1, ellipse_call (icon_ellipse size) img = Ok img1)
    as [img1 He] by by apply Hell_total.
  unfold draw_phase. rewrite He. simpl. rewrite draw_lines_calls.
  apply (lines_succeed size); [|done].
  apply Hell_shape in He as [_ ->]. done.
Qed.

(** No drawing call reaches a corner pixel once the size is at least
    16: the ellipse box stays [margin >= 2] away from the border and the
    segments stay near the centre. *)
Lemma corners_missed size :
  16 <= size →
  Forall (λ p, on_canvas (size, size) p ∧
               ¬ in_box (e_xy (icon_ellipse size)) p ∧
               Forall (misses p) (icon_lines size)) (corners size).
Proof using Type.
  intros Hsz. rewrite icon_lines_unfold. unfold corners.
  repeat constructor; unfold misses, in_box, line_extent; simpl;
    try lia; intros ?; floor_div.
Qed.

(** A pixel that no drawing call reaches keeps the colour of the fresh
    canvas. *)
Lemma untouched_pixel size img p :
  0 < size → render size = Ok img →
  on_canvas (size, size) p →
  ¬ in_box (e_xy (icon_ellipse size)) p →
  Forall (misses p) (icon_lines size) →
  getpixel img p = (0, 0, 0, 0).
Proof using Hnew Hell_total Hell_shape Hell_frame
            Hline_total Hline_shape Hline_frame.
  intros Hpos Hr Hp Hbox Hmiss.
  destruct (render_run size Hpos)
    as (img0 & img1 & img' & Hn & He & Hl & Hr' & Hpx & _).
  rewrite Hr in Hr'. injection Hr' as <-.
  rewrite (lines_frame _ _ _ _ Hl Hmiss).
  rewrite (Hell_frame _ _ _ _ _ _ He _ Hbox). by apply Hpx.
Qed.

(** From size 16 on, the ellipse box lies strictly inside the square
    spanned by the corner pixels, and the reach of every segment lies
    strictly inside the ellipse box. *)
Lemma drawing_inside_margin size :
  16 <= size →
  box_inside (e_xy (icon_ellipse size)) (0, 0, size - 1, size - 1) ∧
  Forall (λ c, box_inside (line_extent (l_xy c) (l_width c))
                          (e_xy (icon_ellipse size))) (icon_lines size).
Proof using Type.
  intros Hsz. rewrite icon_lines_unfold.
  repeat constructor; unfold line_extent; simpl; floor_div.
Qed.

(** C5: for each of the sizes 16, 32, 48 and 128 the renderer produces an
    image whose four corner pixels still have the colour (0, 0, 0, 0) of
    the fresh canvas, hence alpha 0: the ellipse box lies strictly inside
    the square spanned by the corners, the reach of each of the five
    segments lies strictly inside the ellipse box, and so no drawing call
    reaches a corner. *)
Theorem corners_transparent (size : Z) :
  size ∈ sizes →
  box_inside (e_xy (icon_ellipse size)) (0, 0, size - 1, size - 1) ∧
  Forall (λ c, box_inside (line_extent (l_xy c) (l_width c))
                          (e_xy (icon_ellipse size))) (icon_lines size) ∧
  ∃ img, render size = Ok img ∧
         Forall (λ p, on_canvas (size, size) p ∧
                      getpixel img p = (0, 0, 0, 0) ∧
                      alpha (getpixel img p) = 0) (corners size).
Proof using Hnew Hell_total Hell_shape Hell_frame
            Hline_total Hline_shape Hline_frame.
  intros Hin.
  assert (16 <= size) as Hsz.
  { unfold sizes in Hin. rewrite !elem_of_cons, elem_of_nil in Hin. lia. }
  destruct (drawing_inside_margin size Hsz) as [Hbox Hlines].
  split_and!; [done..|].
  destruct (render_run size ltac:(lia)) as (_ & _ & img & _ & _ & _ & Hr & _).
  exists img. split; [done|].
  eapply Forall_impl; [apply (corners_missed size Hsz)|].
  intros p (Hp & Hout & Hmiss). simpl.
  rewrite (untouched_pixel size img p); [done|lia|done..].
Qed.

(** A pixel well inside the ellipse that no segment reaches has the fill
    colour of the circle. *)
Lemma filled_pixel size img p :
  0 < size → render size = Ok img →
  on_canvas (size, size) p →
  well_inside (e_xy (icon_ellipse size)) 2 p →
  Forall (misses p) (icon_lines size) →
  getpixel img p = (0, 124, 186, 255).
Proof using Hnew Hell_total Hell_shape Hell_fills
            Hline_total Hline_shape Hline_frame.
  intros Hpos Hr Hp Hin Hmiss.
  destruct (render_run size Hpos)
    as (img0 & img1 & img' & Hn & He & Hl & Hr' & _ & Hs0 & _).
  rewrite Hr in Hr'. injection Hr' as <-.
  rewrite (lines_frame _ _ _ _ Hl Hmiss).
  apply (Hell_fills _ _ _ _ _ _ He); [done| |done]. by rewrite Hs0.
Qed.

(** The first end of the last segment is white. *)
Lemma last_line_white size img :
  0 < size → render size = Ok img →
  on_canvas (size, size) (white_probe size) ∧
  getpixel img (white_probe size) = (255, 255, 255, 255).
Proof using Hnew Hell_total Hell_shape Hline_total Hline_shape Hline_start.
  intros Hpos Hr.
  destruct (render_run size Hpos)
    as (img0 & img1 & img' & Hn & He & Hl & Hr' & _ & _ & Hs1 & _).
  rewrite Hr in Hr'. injection Hr' as <-.
  assert (valid_line size (vertical_line size 1)) as Hv.
  { pose proof (icon_lines_valid size Hpos) as Hall.
    rewrite icon_lines_unfold in Hall.
    do 4 (apply Forall_cons in Hall as [_ Hall]).
    by apply Forall_cons in Hall as [? _]. }
  split; [apply Hv|].
  apply (lines_last_start size
           [horizontal_line size 0; horizontal_line size 1;
            horizontal_line size 2; vertical_line size 0]
           (vertical_line size 1) img1 img Hs1 Hv Hl).
Qed.

(** C6: for each of the sizes 16, 32, 48 and 128 the produced image has a
    pixel of the circle fill colour (0, 124, 186, 255), between the top
    and the middle segment, and a white pixel (255, 255, 255, 255), at
    the first end of the segment drawn last. *)
Theorem fill_and_white_pixels (size : Z) :
  size ∈ sizes →
  ∃ img, render size = Ok img ∧
         (∃ p, on_canvas (size, size) p ∧
               getpixel img p = (0, 124, 186, 255)) ∧
         (∃ q, on_canvas (size, size) q ∧
               getpixel img q = (255, 255, 255, 255)).
Proof using Hnew Hell_total Hell_shape Hell_fills
            Hline_total Hline_shape Hline_frame Hline_start.
  intros Hin.
  assert (0 < size ∧ on_canvas (size, size) (fill_probe size) ∧
          well_inside (e_xy (icon_ellipse size)) 2 (fill_probe size) ∧
          Forall (misses (fill_probe size)) (icon_lines size))
    as (Hpos & Hp & Hwell & Hmiss).
  { unfold sizes in Hin. rewrite !elem_of_cons, elem_of_nil in Hin.
    destruct Hin as [->|[->|[->|[->|[]]]]];
      apply (bool_decide_unpack _); vm_compute; exact I. }
  destruct (render_run size Hpos) as (_ & _ & img & _ & _ & _ & Hr & _).
  exists img. split; [done|]. split.
  - exists (fill_probe size). split; [done|]. by apply (filled_pixel size).
  - exists (white_probe size). by apply last_line_white.
Qed.

(** ** Saving, and the loop of [main] *)

Lemma icon_filenames :
  icon_filename <$> sizes =
  ["icon16.png"; "icon32.png"; "icon48.png"; "icon128.png"].
Proof using Type. reflexivity. Qed.

Lemma for_sizes_cons size l w :
  for_sizes (size :: l) w =
  w' ← create_icon size (icon_filename size) w; for_sizes l w'.
Proof using Type. reflexivity. Qed.

(** What a successful call of [create_icon] leaves behind. *)
Lemma create_icon_inv size filename w w' :
  create_icon size filename w = Ok w' →
  ∃ img, render size = Ok img ∧
         files w' = <[filename := encode "PNG" img]> (files w) ∧
         stdout w' = stdout w ++ [created_message size filename].
Proof using Hsave_writes.
  unfold create_icon.
  destruct (render size) as [img|e]; simpl; [|done].
  destruct (Image_save img filename "PNG" (files w)) as [fs|e] eqn:Hs;
    simpl; [|done].
  intros [= <-]. apply Hsave_writes in Hs as ->. by exists img.
Qed.

(** On a positive size, in a directory that accepts the write,
    [create_icon] returns. *)
Lemma create_icon_run size filename w :
  0 < size →
  ∃ img w', render size = Ok img ∧
            im_mode img = "RGBA" ∧ im_size img = (size, size) ∧
            create_icon size filename w = Ok w' ∧
            files w' = <[filename := encode "PNG" img]> (files w) ∧
            stdout w' = stdout w ++ [created_message size filename].
Proof using Hnew Hell_total Hell_shape Hline_total Hline_shape
            Hsave_writes Hsave_total.
  intros Hpos.
  destruct (render_run size Hpos)
    as (_ & _ & img & _ & _ & _ & Hr & _ & _ & _ & Hm & Hs).
  destruct (Hsave_total img filename "PNG" (files w)) as [fs Hsave].
  assert (create_icon size filename w =
          Ok (print (created_message size filename)
                    {| files := fs; stdout := stdout w |})) as Hrun.
  { unfold create_icon. rewrite Hr. simpl. by rewrite Hsave. }
  destruct (create_icon_inv _ _ _ _ Hrun) as (img' & Hr' & Hf & Hout).
  rewrite Hr in Hr'. injection Hr' as <-. eauto 10.
Qed.

(** C1: [main] calls [create_icon] with 16, 32, 48 and 128, in that
    order, each with the file name [icon<size>.png]; in a directory that
    accepts the writes it returns, and then the file of each size holds
    the encoding of the image rendered for it, an RGBA image of
    dimensions (size, size). *)
Theorem main_writes_icons (w : World) :
  (∀ w0, main w0 =
         w1 ← create_icon 16 "icon16.png" w0;
         w2 ← create_icon 32 "icon32.png" w1;
         w3 ← create_icon 48 "icon48.png" w2;
         create_icon 128 "icon128.png" w3) ∧
  ∃ w', main w = Ok w' ∧
        stdout w' = stdout w ++
          ["Created icon16.png (16x16)"; "Created icon32.png (32x32)";
           "Created icon48.png (48x48)"; "Created icon128.png (128x128)"] ∧
        ∀ size, size ∈ sizes →
          ∃ img, render size = Ok img ∧
                 im_mode img = "RGBA" ∧ im_size img = (size, size) ∧
                 files w' !! icon_filename size = Some (encode "PNG" img).
Proof using Hnew Hell_total Hell_shape Hline_total Hline_shape
            Hsave_writes Hsave_total.
  split.
  { intros w0. unfold main, sizes.
    rewrite for_sizes_cons. change (icon_filename 16) with "icon16.png".
    destruct (create_icon 16 _ w0) as [w1|]; cbn [mbind result_bind]; [|done].
    rewrite for_sizes_cons. change (icon_filename 32) with "icon32.png".
    destruct (create_icon 32 _ w1) as [w2|]; cbn [mbind result_bind]; [|done].
    rewrite for_sizes_cons. change (icon_filename 48) with "icon48.png".
    destruct (create_icon 48 _ w2) as [w3|]; cbn [mbind result_bind]; [|done].
    rewrite for_sizes_cons. change (icon_filename 128) with "icon128.png".
    by destruct (create_icon 128 _ w3). }
  destruct (create_icon_run 16 (icon_filename 16) w)
    as (i1 & w1 & Hr1 & Hm1 & Hs1 & Hc1 & Hf1 & Ho1); [lia|].
  destruct (create_icon_run 32 (icon_filename 32) w1)
    as (i2 & w2 & Hr2 & Hm2 & Hs2 & Hc2 & Hf2 & Ho2); [lia|].
  destruct (create_icon_run 48 (icon_filename 48) w2)
    as (i3 & w3 & Hr3 & Hm3 & Hs3 & Hc3 & Hf3 & Ho3); [lia|].
  destruct (create_icon_run 128 (icon_filename 128) w3)
    as (i4 & w4 & Hr4 & Hm4 & Hs4 & Hc4 & Hf4 & Ho4); [lia|].
  exists w4. split_and!.
  - unfold main, sizes.
    rewrite for_sizes_cons, Hc1. cbn [mbind result_bind].
    rewrite for_sizes_cons, Hc2. cbn [mbind result_bind].
    rewrite for_sizes_cons, Hc3. cbn [mbind result_bind].
    by rewrite for_sizes_cons, Hc4.
  - rewrite Ho4, Ho3, Ho2, Ho1, <- !(assoc_L (++)). reflexivity.
  - intros size Hin. unfold sizes in Hin.
    rewrite !elem_of_cons, elem_of_nil in Hin.
    rewrite Hf4, Hf3, Hf2, Hf1.
    destruct Hin as [->|[->|[->|[->|[]]]]];
      [exists i1|exists i2|exists i3|exists i4];
      (split_and!; [done..|]);
      change (icon_filename 16) with "icon16.png";
      change (icon_filename 32) with "icon32.png";
      change (icon_filename 48) with "icon48.png";
      change (icon_filename 128) with "icon128.png";
      repeat (rewrite lookup_insert_ne by done);
      by rewrite lookup_insert_eq.
Qed.

(** C8: nothing is caught.  [render] raises exactly what [Image.new],
    [draw.ellipse] or one of the [draw.line] calls raises, the calls
    after the failing one not being made; [create_icon] raises exactly
    what [render] or [img.save] raises; [main] raises exactly what the
    first failing [create_icon] raises, after the calls for the earlier
    sizes returned, and the later sizes are not tried. *)
Theorem exceptions_propagate (size : Z) (filename : string) (w : World)
    (e : Exn) :
  (render size = Raise e ↔
     Image_new "RGBA" (size, size) (0, 0, 0, 0) = Raise e ∨
     ∃ img0, Image_new "RGBA" (size, size) (0, 0, 0, 0) = Ok img0 ∧
       (ellipse_call (icon_ellipse size) img0 = Raise e ∨
        ∃ img1, ellipse_call (icon_ellipse size) img0 = Ok img1 ∧
          ∃ pre c post img2,
            icon_lines size = pre ++ c :: post ∧
            foldM line_call img1 pre = Ok img2 ∧
            line_call img2 c = Raise e)) ∧
  (create_icon size filename w = Raise e ↔
     render size = Raise e ∨
     ∃ img, render size = Ok img ∧
            Image_save img filename "PNG" (files w) = Raise e) ∧
  (main w = Raise e ↔
     ∃ pre s post w',
       sizes = pre ++ s :: post ∧
       for_sizes pre w = Ok w' ∧
       create_icon s (icon_filename s) w' = Raise e).
Proof using Type.
  split_and!.
  - unfold render, draw_phase.
    destruct (Image_new _ _ _) as [img0|e0] eqn:Hn; simpl.
    + destruct (ellipse_call _ img0) as [img1|e1] eqn:He; simpl.
      * rewrite draw_lines_calls, foldM_raise. split.
        -- intros Hl. right. exists img0. split; [done|]. right.
           exists img1. by split.
        -- intros [?|(? & [= <-] & [?|(? & Heq & Hl)])]; [done|congruence|].
           rewrite He in Heq. by injection Heq as <-.
      * split.
        -- intros [= ->]. right. exists img0. split; [done|]. by left.
        -- intros [?|(? & [= <-] & [Heq|(? & Heq & _)])]; [done| |];
             rewrite He in Heq; congruence.
    + split.
      * intros [= ->]. by left.
      * intros [[= ->]|(? & ? & _)]; done.
  - unfold create_icon. destruct (render size) as [img|e0]; simpl.
    + destruct (Image_save _ _ _ _) as [fs|e1] eqn:Hs; simpl.
      * split; [done|]. intros [?|(? & [= <-] & Hs')]; [done|congruence].
      * split.
        -- intros [= ->]. right. by exists img.
        -- intros [?|(? & [= <-] & Hs')]; congruence.
    + split.
      * intros [= ->]. by left.
      * intros [[= ->]|(? & ? & _)]; done.
  - unfold main, for_sizes. apply foldM_raise.
Qed.

(** C10: the renderer draws the circle with the outline colour
    (0, 90, 140, 255) and the outline width 2 for every size.  On any
    library the drawing phase starts with the [draw.ellipse] call that
    passes the constant 2, and on the recording library the log of
    [render] holds one ellipse call, of width 2; the pen width of the
    segments does grow with the size (1 at size 16, 8 at size 128) while
    the outline width stays 2. *)
Theorem outline_width_constant (size : Z) :
  e_outline (icon_ellipse size) = (0, 90, 140, 255) ∧
  e_width (icon_ellipse size) = 2 ∧
  (∀ img, ellipse_call (icon_ellipse size) img =
          draw_ellipse (margin size, margin size,
                        size - margin size, size - margin size)
                       (0, 124, 186, 255) (0, 90, 140, 255) 2 img) ∧
  line_width 16 = 1 ∧ line_width 128 = 8 ∧
  (∀ img, draw_phase size img =
          img' ← draw_ellipse (size / 8, size / 8,
                               size - size / 8, size - size / 8)
                              (0, 124, 186, 255) (0, 90, 140, 255) 2 img;
          draw_lines size img') ∧
  (render size =
   img ← Image_new "RGBA" (size, size) (0, 0, 0, 0);
   img' ← draw_ellipse (size / 8, size / 8, size - size / 8, size - size / 8)
                       (0, 124, 186, 255) (0, 90, 140, 255) 2 img;
   draw_lines size img') ∧
  (∃ log, render (H := Rec.pillow) size = Ok log ∧
          Rec.ellipses log =
            [{| e_xy := (size / 8, size / 8,
                         size - size / 8, size - size / 8);
                e_fill := (0, 124, 186, 255);
                e_outline := (0, 90, 140, 255);
                e_width := 2 |}]) ∧
  (∃ log16 log128,
     render (H := Rec.pillow) 16 = Ok log16 ∧
     render (H := Rec.pillow) 128 = Ok log128 ∧
     e_width <$> Rec.ellipses log16 = [2] ∧
     e_width <$> Rec.ellipses log128 = [2] ∧
     l_width <$> Rec.lines log16 = [1; 1; 1; 1; 1] ∧
     l_width <$> Rec.lines log128 = [8; 8; 8; 8; 8]).
Proof using Type.
  split_and!; try done.
  - eexists. split; reflexivity.
  - eexists. eexists. split_and!; reflexivity.
Qed.

End Renderer.

(** ** The theorems on the reference implementation *)

(** The reference renderer at size 16: a fill pixel, a corner, a white
    pixel, and the dimensions. *)
Example ref_render_16 :
  (λ img : Ref.image,
     (Ref.px img (8, 7), Ref.px img (0, 0), Ref.px img (10, 6),
      Ref.mode img, Ref.size img)) <$> render (H := Ref.pillow) 16 =
  Ok ((0, 124, 186, 255), (0, 0, 0, 0), (255, 255, 255, 255),
      "RGBA", (16, 16)).
Proof. vm_compute. reflexivity. Qed.

(** A negative size makes the reference [Image.new] raise, and the
    exception comes out of [create_icon] with nothing written or
    printed. *)
Example ref_negative_size :
  create_icon (H := Ref.pillow) (-1) "icon-1.png" Ref.empty_world =
  Raise (Ref.ValueError "Width and height must be >= 0").
Proof. vm_compute. reflexivity. Qed.

(** [main] on the reference implementation, from an empty directory. *)
Lemma main_writes_icons_witness :
  new_canvas (H := Ref.pillow) ∧ ellipse_total (H := Ref.pillow) ∧
  ellipse_keeps_shape (H := Ref.pillow) ∧ line_total (H := Ref.pillow) ∧
  line_keeps_shape (H := Ref.pillow) ∧ save_writes (H := Ref.pillow) ∧
  save_total (H := Ref.pillow) ∧
  ∃ w', main (H := Ref.pillow) Ref.empty_world = Ok w' ∧
        ∀ size, size ∈ sizes →
          ∃ img, render (H := Ref.pillow) size = Ok img ∧
                 Ref.mode img = "RGBA" ∧ Ref.size img = (size, size) ∧
                 files w' !! icon_filename size = Some (Ref.enc "PNG" img).
Proof.
  split_and!;
    [exact ref_new_canvas|exact ref_ellipse_total
    |exact ref_ellipse_keeps_shape|exact ref_line_total
    |exact ref_line_keeps_shape|exact ref_save_writes
    |exact ref_save_total|].
  destruct (main_writes_icons (H := Ref.pillow)
              ref_new_canvas ref_ellipse_total ref_ellipse_keeps_shape
              ref_line_total ref_line_keeps_shape
              ref_save_writes ref_save_total Ref.empty_world)
    as (_ & w' & Hmain & _ & Hfiles).
  exists w'. split; [exact Hmain|exact Hfiles].
Defined.

(** The drawing phase on the reference implementation at size 16. *)
Lemma drawing_phase_succeeds_witness :
  ellipse_total (H := Ref.pillow) ∧ ellipse_keeps_shape (H := Ref.pillow) ∧
  line_total (H := Ref.pillow) ∧ line_keeps_shape (H := Ref.pillow) ∧
  0 < 16 ∧
  margin 16 <= 16 - margin 16 ∧
  valid_ellipse (icon_ellipse 16) ∧
  Forall (valid_line 16) (icon_lines 16) ∧
  ∀ img : Ref.image, Ref.size img = (16, 16) →
    ∃ img', draw_phase (H := Ref.pillow) 16 img = Ok img'.
Proof.
  split_and!;
    [exact ref_ellipse_total|exact ref_ellipse_keeps_shape
    |exact ref_line_total|exact ref_line_keeps_shape|lia|..];
    apply (drawing_phase_succeeds (H := Ref.pillow)
             ref_ellipse_total ref_ellipse_keeps_shape
             ref_line_total ref_line_keeps_shape 16); lia.
Defined.

(** The corners of the reference icon of size 16. *)
Lemma corners_transparent_witness :
  new_canvas (H := Ref.pillow) ∧ ellipse_total (H := Ref.pillow) ∧
  ellipse_keeps_shape (H := Ref.pillow) ∧ ellipse_frame (H := Ref.pillow) ∧
  line_total (H := Ref.pillow) ∧ line_keeps_shape (H := Ref.pillow) ∧
  line_frame (H := Ref.pillow) ∧
  16 ∈ sizes ∧
  ∃ img, render (H := Ref.pillow) 16 = Ok img ∧
         Forall (λ p, Ref.px img p = (0, 0, 0, 0) ∧ alpha (Ref.px img p) = 0)
                (corners 16).
Proof.
  split_and!;
    [exact ref_new_canvas|exact ref_ellipse_total
    |exact ref_ellipse_keeps_shape|exact ref_ellipse_frame
    |exact ref_line_total|exact ref_line_keeps_shape|exact ref_line_frame
    |apply list_elem_of_here|].
  destruct (corners_transparent (H := Ref.pillow)
              ref_new_canvas ref_ellipse_total ref_ellipse_keeps_shape
              ref_ellipse_frame ref_line_total ref_line_keeps_shape
              ref_line_frame 16 (list_elem_of_here 16 _))
    as (_ & _ & img & Hr & Hall).
  exists img. split; [exact Hr|].
  eapply Forall_impl; [exact Hall|]. intros p (_ & Hpx & Ha).
  split; [exact Hpx|exact Ha].
Defined.

(** The fill and white pixels of the reference icon of size 16. *)
Lemma fill_and_white_pixels_witness :
  new_canvas (H := Ref.pillow) ∧ ellipse_total (H := Ref.pillow) ∧
  ellipse_keeps_shape (H := Ref.pillow) ∧ ellipse_fills (H := Ref.pillow) ∧
  line_total (H := Ref.pillow) ∧ line_keeps_shape (H := Ref.pillow) ∧
  line_frame (H := Ref.pillow) ∧ line_paints_start (H := Ref.pillow) ∧
  16 ∈ sizes ∧
  ∃ img, render (H := Ref.pillow) 16 = Ok img ∧
         (∃ p, on_canvas (16, 16) p ∧ Ref.px img p = (0, 124, 186, 255)) ∧
         (∃ q, on_canvas (16, 16) q ∧ Ref.px img q = (255, 255, 255, 255)).
Proof.
  split_and!;
    [exact ref_new_canvas|exact ref_ellipse_total
    |exact ref_ellipse_keeps_shape|exact ref_ellipse_fills
    |exact ref_line_total|exact ref_line_keeps_shape|exact ref_line_frame
    |exact ref_line_paints_start|apply list_elem_of_here|].
  exact (fill_and_white_pixels (H := Ref.pillow)
           ref_new_canvas ref_ellipse_total ref_ellipse_keeps_shape
           ref_ellipse_fills ref_line_total ref_line_keeps_shape
           ref_line_frame ref_line_paints_start 16 (list_elem_of_here 16 _)).
Defined.

(** ** More on the geometry of the glyph *)

(** X1: the three horizontal segments are centred on the column [center];
    the pair of vertical segments is centred on it exactly when the
    remainder of the size by 8 is less than 4; otherwise [size // 4] is
    one more than twice [size // 8] and the right segment is one column
    farther from the centre than the left one. *)
Theorem vertical_pair_centred_iff (size : Z) :
  Forall (λ c, (l_xy c).1.1.1 + (l_xy c).1.2 = 2 * center size)
         (horizontal_line size <$> range 3) ∧
  let x0 := (l_xy (vertical_line size 0)).1.1.1 in
  let x1 := (l_xy (vertical_line size 1)).1.1.1 in
  (x0 + x1 = 2 * center size ↔ size `mod` 8 < 4) ∧
  (4 <= size `mod` 8 → x0 + x1 = 2 * center size + 1).
Proof.
  split.
  - rewrite range_3. repeat constructor; simpl; unfold center; lia.
  - cbv zeta. rewrite !vertical_line_xy. cbn [fst]. unfold center.
    rewrite Z.mul_0_l, Z.mul_1_l, Z.div_0_l by done.
    split; [split|]; intros; floor_div.
Qed.

(** X2: small sizes collapse the glyph.  For a size that is not negative a
    horizontal segment is [2 * (size // 4)] columns long and a vertical
    one [2 * (size // 6)] rows long; the horizontal segments are single
    pixels exactly below size 4, the vertical ones exactly below size 6,
    and the three rows are distinct exactly from size 6 on. *)
Theorem glyph_collapses_iff (size : Z) :
  0 <= size →
  Forall (λ c, (l_xy c).1.2 - (l_xy c).1.1.1 = 2 * (size / 4))
         (horizontal_line size <$> range 3) ∧
  Forall (λ c, (l_xy c).2 - (l_xy c).1.1.2 = 2 * (size / 6))
         (vertical_line size <$> range 2) ∧
  (start_point (l_xy (horizontal_line size 0)) =
   end_point (l_xy (horizontal_line size 0)) ↔ size < 4) ∧
  (start_point (l_xy (vertical_line size 0)) =
   end_point (l_xy (vertical_line size 0)) ↔ size < 6) ∧
  ((l_xy (horizontal_line size 0)).2 < (l_xy (horizontal_line size 1)).2 ∧
   (l_xy (horizontal_line size 1)).2 < (l_xy (horizontal_line size 2)).2
   ↔ 6 <= size).
Proof.
  intros Hsz. split_and!.
  - rewrite range_3. repeat constructor; simpl; lia.
  - rewrite range_2. repeat constructor; simpl; lia.
  - unfold start_point, end_point. simpl. split.
    + intros [= Hx]. floor_div.
    + intros Hlt. f_equal. floor_div.
  - unfold start_point, end_point. simpl. split.
    + intros [= Hy]. floor_div.
    + intros Hlt. f_equal. floor_div.
  - rewrite !horizontal_line_xy. cbn [snd].
    rewrite Z.mul_0_l, Z.mul_1_l, Z.div_0_l by done.
    split; intros; floor_div.
Qed.

(** X3: the ends of the segments are pixels of the canvas exactly when the
    size is positive. *)
Theorem segment_ends_on_canvas_iff (size : Z) :
  Forall (valid_line size) (icon_lines size) ↔ 0 < size.
Proof.
  split.
  - rewrite icon_lines_unfold. intros Hall.
    apply Forall_cons in Hall as [(_ & [[Hx0 Hx1] _] & _) _].
    simpl in Hx0, Hx1. lia.
  - intros Hpos. rewrite icon_lines_unfold.
    repeat constructor; simpl; floor_div.
Qed.

(** X4: for a size that is not negative both ends of every segment lie in the
    bounding box of the ellipse. *)
Theorem segment_ends_in_ellipse_box (size : Z) :
  0 <= size →
  Forall (λ c, in_box (e_xy (icon_ellipse size)) (start_point (l_xy c)) ∧
               in_box (e_xy (icon_ellipse size)) (end_point (l_xy c)))
         (icon_lines size).
Proof.
  intros Hsz. rewrite icon_lines_unfold.
  repeat constructor; simpl; floor_div.
Qed.

(** For a positive size the reach of every segment stays in the bounding
    box of the ellipse. *)
Lemma reach_in_ellipse_box size p :
  0 < size → ¬ in_box (e_xy (icon_ellipse size)) p →
  Forall (misses p) (icon_lines size).
Proof.
  intros Hpos Hout. rewrite icon_lines_unfold.
  repeat constructor; intros Hin; apply Hout; clear Hout;
    revert Hin; unfold in_box, line_extent; simpl; intros Hin; floor_div.
Qed.

Lemma string_app_length (a t : string) :
  String.length (a +:+ t) = (String.length a + String.length t)%nat.
Proof. induction a as [|c a IH]; simpl; [done|]. by rewrite IH. Qed.

Lemma string_app_inv_tail (a b t : string) : a +:+ t = b +:+ t → a = b.
Proof.
  revert b. induction a as [|x a IH]; intros [|y b] Heq; simpl in Heq.
  - done.
  - apply (f_equal String.length) in Heq. simpl in Heq.
    rewrite !string_app_length in Heq. simpl in Heq. lia.
  - apply (f_equal String.length) in Heq. simpl in Heq.
    rewrite !string_app_length in Heq. simpl in Heq. lia.
  - injection Heq as -> Heq. f_equal. by apply IH.
Qed.

(** X7: different sizes never share a file: the file name determines the
    size, also for sizes that are negative or have several digits. *)
Theorem icon_filename_inj (s1 s2 : Z) :
  icon_filename s1 = icon_filename s2 → s1 = s2.
Proof.
  unfold icon_filename. intros Heq.
  apply (String.app_inj "icon") in Heq.
  apply string_app_inv_tail in Heq.
  by apply (inj pretty).
Qed.

(** ** More on the rendered image and on the files *)

Section Effects.
Context `{Pillow}.

Hypothesis Hnew : new_canvas.
Hypothesis Hell_total : ellipse_total.
Hypothesis Hell_shape : ellipse_keeps_shape.
Hypothesis Hell_frame : ellipse_frame.
Hypothesis Hline_total : line_total.
Hypothesis Hline_shape : line_keeps_shape.
Hypothesis Hline_frame : line_frame.
Hypothesis Hline_start : line_paints_start.
Hypothesis Hsave_writes : save_writes.
Hypothesis Hsave_total : save_total.

(** X5: for every positive size the renderer returns an RGBA image of
    dimensions (size, size) in which every pixel outside the bounding box
    of the ellipse, the whole margin around the circle, still has the
    colour (0, 0, 0, 0) of the fresh canvas. *)
Theorem margin_ring_transparent (size : Z) :
  0 < size →
  ∃ img, render size = Ok img ∧
         im_mode img = "RGBA" ∧ im_size img = (size, size) ∧
         ∀ p, on_canvas (size, size) p →
              ¬ in_box (e_xy (icon_ellipse size)) p →
              getpixel img p = (0, 0, 0, 0).
Proof using Hnew Hell_total Hell_shape Hell_frame
            Hline_total Hline_shape Hline_frame.
  intros Hpos.
  destruct (render_run Hnew Hell_total Hell_shape Hline_total Hline_shape
              size Hpos)
    as (_ & _ & img & _ & _ & _ & Hr & _ & _ & _ & Hm & Hs).
  exists img. split_and!; [done..|].
  intros p Hp Hout.
  apply (untouched_pixel Hnew Hell_total Hell_shape Hell_frame
           Hline_total Hline_shape Hline_frame size img p);
    [done..|]. by apply reach_in_ellipse_box.
Qed.

(** X6: for every positive size, also the smallest, the rendered image has a
    white pixel: the first end of the segment drawn last. *)
Theorem white_pixel_any_size (size : Z) :
  0 < size →
  ∃ img, render size = Ok img ∧
         on_canvas (size, size) (white_probe size) ∧
         getpixel img (white_probe size) = (255, 255, 255, 255).
Proof using Hnew Hell_total Hell_shape Hline_total Hline_shape Hline_start.
  intros Hpos.
  destruct (render_run Hnew Hell_total Hell_shape Hline_total Hline_shape
              size Hpos) as (_ & _ & img & _ & _ & _ & Hr & _).
  exists img. split; [done|].
  by apply (last_line_white Hnew Hell_total Hell_shape
              Hline_total Hline_shape Hline_start).
Qed.

(** What a successful run of [main] leaves behind. *)
Lemma main_inv w w' :
  main w = Ok w' →
  ∃ i1 i2 i3 i4,
    render 16 = Ok i1 ∧ render 32 = Ok i2 ∧
    render 48 = Ok i3 ∧ render 128 = Ok i4 ∧
    files w' = <["icon128.png" := encode "PNG" i4]>
                 (<["icon48.png" := encode "PNG" i3]>
                    (<["icon32.png" := encode "PNG" i2]>
                       (<["icon16.png" := encode "PNG" i1]> (files w)))) ∧
    stdout w' = stdout w ++
      ["Created icon16.png (16x16)"; "Created icon32.png (32x32)";
       "Created icon48.png (48x48)"; "Created icon128.png (128x128)"].
Proof using Hsave_writes.
  unfold main, sizes. rewrite for_sizes_cons.
  destruct (create_icon 16 _ w) as [w1|] eqn:H1; cbn [mbind result_bind];
    [|done].
  rewrite for_sizes_cons.
  destruct (create_icon 32 _ w1) as [w2|] eqn:H2; cbn [mbind result_bind];
    [|done].
  rewrite for_sizes_cons.
  destruct (create_icon 48 _ w2) as [w3|] eqn:H3; cbn [mbind result_bind];
    [|done].
  rewrite for_sizes_cons.
  destruct (create_icon 128 _ w3) as [w4|] eqn:H4; cbn [mbind result_bind];
    [|done].
  intros [= <-].
  apply (create_icon_inv Hsave_writes) in H1 as (i1 & Hr1 & Hf1 & Ho1).
  apply (create_icon_inv Hsave_writes) in H2 as (i2 & Hr2 & Hf2 & Ho2).
  apply (create_icon_inv Hsave_writes) in H3 as (i3 & Hr3 & Hf3 & Ho3).
  apply (create_icon_inv Hsave_writes) in H4 as (i4 & Hr4 & Hf4 & Ho4).
  exists i1, i2, i3, i4. split_and!; [done..| |].
  - by rewrite Hf4, Hf3, Hf2, Hf1.
  - rewrite Ho4, Ho3, Ho2, Ho1, <- !(assoc_L (++)). reflexivity.
Qed.

(** In a directory that accepts the writes [main] returns. *)
Lemma main_returns w : ∃ w', main w = Ok w'.
Proof using Hnew Hell_total Hell_shape Hline_total Hline_shape
            Hsave_writes Hsave_total.
  pose proof (create_icon_run Hnew Hell_total Hell_shape Hline_total
                Hline_shape Hsave_writes Hsave_total) as Hrun.
  destruct (Hrun 16 (icon_filename 16) w)
    as (_ & w1 & _ & _ & _ & Hc1 & _); [lia|].
  destruct (Hrun 32 (icon_filename 32) w1)
    as (_ & w2 & _ & _ & _ & Hc2 & _); [lia|].
  destruct (Hrun 48 (icon_filename 48) w2)
    as (_ & w3 & _ & _ & _ & Hc3 & _); [lia|].
  destruct (Hrun 128 (icon_filename 128) w3)
    as (_ & w4 & _ & _ & _ & Hc4 & _); [lia|].
  exists w4. unfold main, sizes.
  rewrite for_sizes_cons, Hc1. cbn [mbind result_bind].
  rewrite for_sizes_cons, Hc2. cbn [mbind result_bind].
  rewrite for_sizes_cons, Hc3. cbn [mbind result_bind].
  by rewrite for_sizes_cons, Hc4.
Qed.

(** X8: A run of [main] that returns touches no file other than the four
    icons: every other name holds what it held before, and the names in
    the directory are the old ones and these four. *)
Theorem main_frame (w w' : World) :
  main w = Ok w' →
  (∀ name, name ∉ icon_filename <$> sizes →
           files w' !! name = files w !! name) ∧
  dom (files w') = dom (files w) ∪ list_to_set (icon_filename <$> sizes).
Proof using Hsave_writes.
  intros (i1 & i2 & i3 & i4 & _ & _ & _ & _ & Hf & _)%main_inv.
  rewrite Hf, icon_filenames. split.
  - intros name Hname.
    rewrite !not_elem_of_cons in Hname.
    destruct Hname as (? & ? & ? & ? & _).
    by rewrite !lookup_insert_ne by done.
  - rewrite !dom_insert_L. simpl. apply set_eq. intros name.
    rewrite !elem_of_union, !elem_of_singleton, elem_of_empty. tauto.
Qed.

End Effects.

(** ** The further theorems on concrete inputs *)

(** The glyph at size 5: horizontal segments two columns long, vertical
    segments single pixels. *)
Lemma glyph_collapses_iff_witness :
  0 <= 5 ∧
  Forall (λ c, (l_xy c).1.2 - (l_xy c).1.1.1 = 2 * (5 / 4))
         (horizontal_line 5 <$> range 3) ∧
  (start_point (l_xy (vertical_line 5 0)) =
   end_point (l_xy (vertical_line 5 0)) ↔ 5 < 6).
Proof.
  split; [lia|].
  destruct (glyph_collapses_iff 5 ltac:(lia)) as (Hh & _ & _ & Hv & _).
  split; [exact Hh|exact Hv].
Defined.

(** The segment ends at size 16. *)
Lemma segment_ends_in_ellipse_box_witness :
  0 <= 16 ∧
  Forall (λ c, in_box (e_xy (icon_ellipse 16)) (start_point (l_xy c)) ∧
               in_box (e_xy (icon_ellipse 16)) (end_point (l_xy c)))
         (icon_lines 16).
Proof. split; [lia|]. apply (segment_ends_in_ellipse_box 16). lia. Defined.

(** Equal names, equal sizes. *)
Lemma icon_filename_inj_witness :
  icon_filename 48 = "icon48.png" ∧ 48 = 48.
Proof.
  split; [reflexivity|]. apply (icon_filename_inj 48 48). reflexivity.
Defined.

(** The margin of the reference icon of size 20. *)
Lemma margin_ring_transparent_witness :
  new_canvas (H := Ref.pillow) ∧ ellipse_total (H := Ref.pillow) ∧
  ellipse_keeps_shape (H := Ref.pillow) ∧ ellipse_frame (H := Ref.pillow) ∧
  line_total (H := Ref.pillow) ∧ line_keeps_shape (H := Ref.pillow) ∧
  line_frame (H := Ref.pillow) ∧
  0 < 20 ∧
  ∃ img, render (H := Ref.pillow) 20 = Ok img ∧
         Ref.size img = (20, 20) ∧
         ∀ p, on_canvas (20, 20) p → ¬ in_box (e_xy (icon_ellipse 20)) p →
              Ref.px img p = (0, 0, 0, 0).
Proof.
  split_and!;
    [exact ref_new_canvas|exact ref_ellipse_total
    |exact ref_ellipse_keeps_shape|exact ref_ellipse_frame
    |exact ref_line_total|exact ref_line_keeps_shape|exact ref_line_frame
    |lia|].
  destruct (margin_ring_transparent (H := Ref.pillow)
              ref_new_canvas ref_ellipse_total ref_ellipse_keeps_shape
              ref_ellipse_frame ref_line_total ref_line_keeps_shape
              ref_line_frame 20 ltac:(lia))
    as (img & Hr & _ & Hs & Hpx).
  exists img. split_and!; [exact Hr|exact Hs|exact Hpx].
Defined.

(** The reference icon of size 1 is a single white pixel. *)
Lemma white_pixel_any_size_witness :
  new_canvas (H := Ref.pillow) ∧ ellipse_total (H := Ref.pillow) ∧
  ellipse_keeps_shape (H := Ref.pillow) ∧ line_total (H := Ref.pillow) ∧
  line_keeps_shape (H := Ref.pillow) ∧ line_paints_start (H := Ref.pillow) ∧
  0 < 1 ∧
  ∃ img, render (H := Ref.pillow) 1 = Ok img ∧
         Ref.px img (white_probe 1) = (255, 255, 255, 255).
Proof.
  split_and!;
    [exact ref_new_canvas|exact ref_ellipse_total
    |exact ref_ellipse_keeps_shape|exact ref_line_total
    |exact ref_line_keeps_shape|exact ref_line_paints_start|lia|].
  destruct (white_pixel_any_size (H := Ref.pillow)
              ref_new_canvas ref_ellipse_total ref_ellipse_keeps_shape
              ref_line_total ref_line_keeps_shape ref_line_paints_start
              1 ltac:(lia))
    as (img & Hr & _ & Hpx).
  exists img. split; [exact Hr|exact Hpx].
Defined.

(** [main] on the reference implementation, in a directory that already
    holds a file. *)
Lemma main_frame_witness :
  save_writes (H := Ref.pillow) ∧
  ∃ w', main (H := Ref.pillow)
             {| files := {["notes.txt" := []]}; stdout := [] |} = Ok w' ∧
        files w' !! "notes.txt" = Some [].
Proof.
  split; [exact ref_save_writes|].
  destruct (main_returns (H := Ref.pillow)
              ref_new_canvas ref_ellipse_total ref_ellipse_keeps_shape
              ref_line_total ref_line_keeps_shape
              ref_save_writes ref_save_total
              {| files := {["notes.txt" := []]}; stdout := [] |})
    as [w' Hmain].
  exists w'. split; [exact Hmain|].
  destruct (main_frame (H := Ref.pillow) ref_save_writes _ _ Hmain)
    as [Hother _].
  rewrite (Hother "notes.txt"); [reflexivity|].
  apply (bool_decide_unpack _). vm_compute. exact I.
Defined.

